(** * visa_interface.py: the Yokogawa 7651 driver, embedded and verified

    The driver is a thin layer over three external collaborators: the VISA
    transport ([visa.ResourceManager], [open_resource], [instr.write],
    [rm.close]), the clock ([time.sleep]) and the console ([print]).  It is
    embedded as a state-and-exception monad whose state is the chronological
    trace of the calls made to those collaborators.  Whether an external call
    raises is decided by an environment, a parameter of the whole model.

    Numeric arguments are Python [int]s, hence [Z]; an optional argument whose
    default is [None] is an [option Z]. *)

From Stdlib Require Import ZArith DecimalString DecimalPos DecimalZ Lia.
From stdpp Require Import gmap strings list sorting.

Local Open Scope Z_scope.

(** ** Python primitives used by the driver *)

Module Py.

(** [str(n)] for an [int]: decimal digits, a leading [-] when negative. *)
Definition str (n : Z) : string := NilZero.string_of_int (Z.to_int n).

(** [int(b)] for a [bool]. *)
Definition int (b : bool) : Z := if b then 1 else 0.

(** Truth value of an optional [int], as tested by [if x:]: [None] and [0]
    are false, every other integer is true. *)
Definition truthy (x : option Z) : bool :=
  match x with
  | None => false
  | Some n => negb (n =? 0)
  end.

(** The exceptions that can occur: the two the driver's own code raises
    ([ValueError] by [raise], [KeyError] by a failed dict subscript) and
    whatever an external call raises. *)
Inductive exn : Type :=
| ValueError (msg : string)
| KeyError (key : Z)
| ExternalError (msg : string).

(** [str(e)]: the message; for a [KeyError] the [repr] of the key. *)
Definition str_exn (e : exn) : string :=
  match e with
  | ValueError msg => msg
  | KeyError key => str key
  | ExternalError msg => msg
  end.

End Py.

Export Py(exn, ValueError, KeyError, ExternalError).

(** ** Calls to the external collaborators *)

Inductive event : Type :=
| EResourceManager                (* visa.ResourceManager() *)
| EOpenResource (port : string)   (* self.rm.open_resource(port) *)
| EWrite (cmd : string)           (* self.instr.write(cmd) *)
| ERmClose                        (* self.rm.close() *)
| ESleep (seconds : Z)            (* time.sleep(seconds) *)
| EPrint (text : string).         (* print(text) *)

Definition trace : Type := list event.

(** The environment: given the calls made so far and the next call, either
    the call returns ([None]) or it raises. *)
Definition environment : Type := trace -> event -> option exn.

(** An environment in which no external call ever fails. *)
Definition reliable : environment := fun _ _ => None.

(** The command strings handed to [instr.write], in order. *)
Definition writes (t : trace) : list string :=
  omap (fun e => match e with EWrite cmd => Some cmd | _ => None end) t.

(** ** The monad *)

Inductive outcome (A : Type) : Type :=
| Ret (a : A)          (* normal return *)
| Raise (e : exn)      (* an exception propagates to the caller *)
| Timeout.             (* a loop ran out of fuel *)

Arguments Ret {A} a.
Arguments Raise {A} e.
Arguments Timeout {A}.

Definition M (A : Type) : Type := trace -> outcome A * trace.

Definition ret {A : Type} (a : A) : M A := fun t => (Ret a, t).

Definition bind {A B : Type} (m : M A) (k : A -> M B) : M B :=
  fun t =>
    match m t with
    | (Ret a, t') => k a t'
    | (Raise e, t') => (Raise e, t')
    | (Timeout, t') => (Timeout, t')
    end.

Definition raise {A : Type} (e : exn) : M A := fun t => (Raise e, t).

Definition timeout {A : Type} : M A := fun t => (Timeout, t).

(** [try: body except Exception as e: handler e]. *)
Definition try_except {A : Type} (body : M A) (handler : exn -> M A) : M A :=
  fun t =>
    match body t with
    | (Raise e, t') => handler e t'
    | r => r
    end.

(** [print(text)]: recorded, never fails. *)
Definition print (text : string) : M unit := fun t => (Ret tt, t ++ [EPrint text]).

Declare Scope py_scope.
Delimit Scope py_scope with py.
Notation "x <- m ;; k" := (bind m (fun x => k))
  (at level 100, m at next level, right associativity) : py_scope.
Notation "m ;; k" := (bind m (fun _ => k))
  (at level 100, right associativity) : py_scope.
Local Open Scope py_scope.

(** What an external call answers, turned into an outcome. *)
Definition answer (r : option exn) : outcome unit :=
  match r with
  | None => Ret tt
  | Some e => Raise e
  end.

(** ** class instrument *)

Record instrument : Type := {
  name : string;
  port : string
}.

Section Driver.

Variable env : environment.

(** An external call: recorded in the trace, then the environment decides
    whether it returns or raises. *)
Definition extern (e : event) : M unit :=
  fun t => (answer (env t e), t ++ [e]).

(** [instrument.__init__] *)
Definition init (name port : string) : M instrument :=
  extern EResourceManager;;
  print "Opening VISA session...";;
  extern (EOpenResource port);;
  print "VISA session successfully opened!";;
  ret {| name := name; port := port |}.

(** [instrument.close_instrument] *)
Definition close_instrument (self : instrument) : M unit :=
  extern ERmClose;;
  print ("Communication with instrument " +:+ name self +:+ " at port "
           +:+ port self +:+ " will be closed...");;
  print "VISA session closed!".

(** ** class yokogawa7651 *)

Definition voltage_ranges : gmap Z string :=
  <[10 := "R2"]> (<[100 := "R3"]> (<[1000 := "R4"]>
    (<[10000 := "R5"]> (<[30000 := "R6"]> ∅)))).

Definition current_ranges : gmap Z string :=
  <[1 := "R4"]> (<[10 := "R5"]> (<[100 := "R6"]> ∅)).

(** [table[key]]: a missing key raises [KeyError(key)]. *)
Definition getitem (table : gmap Z string) (key : Z) : M string :=
  match table !! key with
  | Some code => ret code
  | None => raise (KeyError key)
  end.

Definition initialize_instrument : M unit :=
  extern (EWrite "RC").

Definition set_voltage_limit (vmax : Z) : M unit :=
  if (vmax >? 30) || (vmax <? 0) then
    raise (ValueError "Error: vmax should be in the 1 to 30 V range!")
  else
    let cmd_string := "LV" +:+ Py.str vmax in
    extern (EWrite cmd_string).

Definition set_current_limit (imax : Z) : M unit :=
  if (imax >? 120) || (imax <? 5) then
    raise (ValueError "Error: imax should be in the 5 to 120 mA range!")
  else
    let cmd_string := "LA" +:+ Py.str imax in
    extern (EWrite cmd_string).

Definition set_voltage_function (v_range : Z) (i_limit : option Z) : M unit :=
  try_except
    (code <- getitem voltage_ranges v_range;;
     let cmd_string := "F1" +:+ code +:+ "E" in
     extern (EWrite cmd_string);;
     if Py.truthy i_limit then
       match i_limit with
       | Some imax => set_current_limit imax
       | None => ret tt
       end
     else ret tt)
    (fun e => print (Py.str_exn e)).

Definition set_current_function (i_range : Z) (v_limit : option Z) : M unit :=
  try_except
    (code <- getitem current_ranges i_range;;
     let cmd_string := "F5" +:+ code +:+ "E" in
     extern (EWrite cmd_string);;
     if Py.truthy v_limit then
       match v_limit with
       | Some vmax => set_voltage_limit vmax
       | None => ret tt
       end
     else ret tt)
    (fun e => print (Py.str_exn e)).

Definition set_output_val (value : Z) (polarity : string) : M unit :=
  let cmd_string := "S" +:+ polarity +:+ Py.str value +:+ "E" in
  extern (EWrite cmd_string).

Definition set_output_state (on : bool) : M unit :=
  let cmd_string := "O" +:+ Py.str (Py.int on) +:+ "E" in
  extern (EWrite cmd_string).

(** The [while v_min <= v_max] loop of [dc_voltage_sweep].  [fuel] bounds
    the number of iterations; [Timeout] means the bound was reached with
    the loop condition still true. *)
Fixpoint sweep_loop (fuel : nat) (v_min v_max step delay : Z)
    (polarity : string) : M unit :=
  if v_min <=? v_max then
    match fuel with
    | O => timeout
    | S fuel' =>
        set_output_val v_min polarity;;
        let v_min := v_min + step in
        extern (ESleep delay);;
        sweep_loop fuel' v_min v_max step delay polarity
    end
  else ret tt.

Definition dc_voltage_sweep (fuel : nat) (v_min v_max step delay v_range : Z)
    (i_limit : option Z) (polarity : string) : M unit :=
  if v_min >? v_max then
    raise (ValueError "Error: v_min should be lower than v_max")
  else
    set_voltage_function v_range i_limit;;
    sweep_loop fuel v_min v_max step delay polarity.

End Driver.

(** The default of the [polarity] parameter. *)
Definition default_polarity : string := "+".

(** ** Vocabulary for the sweep *)

(** An environment that lets every external call return. *)
Definition accepts_all (env : environment) : Prop :=
  forall (h : trace) (e : event), env h e = None.

(** The first [n] values of the progression [v], [v + step], [v + 2*step], ... *)
Fixpoint sweep_values (n : nat) (v step : Z) : list Z :=
  match n with
  | O => []
  | S n' => v :: sweep_values n' (v + step) step
  end.

(** The external calls of one loop iteration per value: the output-value
    write, then the sleep. *)
Definition sweep_trace (polarity : string) (delay : Z) (values : list Z) : trace :=
  flat_map
    (fun v => [EWrite ("S" +:+ polarity +:+ Py.str v +:+ "E"); ESleep delay])
    values.

(** Number of values [v_min + k*step], [k >= 0], that are [<= v_max], for
    [step > 0] and [v_min <= v_max]: [floor((v_max - v_min) / step) + 1]. *)
Definition sweep_count (v_min v_max step : Z) : nat :=
  Z.to_nat ((v_max - v_min) / step + 1).

(** ** The remaining methods *)

(** [instrument.__repr__].  The format arguments are [(self.port, self.name)],
    in that order. *)
Definition repr (self : instrument) : string :=
  "Instrument " +:+ port self +:+ " " +:+ String (Ascii.ascii_of_nat 10)
    ("available at port: " +:+ name self +:+ " " +:+ String (Ascii.ascii_of_nat 10)
       "waiting for commands...").

(** [for x in l: body x] *)
Fixpoint for_each {A : Type} (l : list A) (body : A -> M unit) : M unit :=
  match l with
  | [] => ret tt
  | x :: l' => body x;; for_each l' body
  end.

(** [print_voltage_range]: the keys of the table, sorted in place, one
    [print(i, "mV")] per key ([print] joins its arguments with a space). *)
Definition print_voltage_range : M unit :=
  let vr := (map_to_list voltage_ranges).*1 in
  let vr := merge_sort Z.le vr in
  for_each vr (fun i => print (Py.str i +:+ " " +:+ "mV")).

(** [print_current_range] *)
Definition print_current_range : M unit :=
  let cr := (map_to_list current_ranges).*1 in
  let cr := merge_sort Z.le cr in
  for_each cr (fun i => print (Py.str i +:+ " " +:+ "mA")).

(** ** Environments with a failing collaborator *)

(** A transport on which every [write] raises [e]; everything else works. *)
Definition dead_transport (e : exn) : environment :=
  fun _ ev => match ev with EWrite _ => Some e | _ => None end.

(** A transport that raises [e] on the command [cmd] and accepts every other
    command. *)
Definition rejecting (cmd : string) (e : exn) : environment :=
  fun _ ev =>
    match ev with
    | EWrite c => if String.eqb c cmd then Some e else None
    | _ => None
    end.

(** A clock on which every [sleep] raises [e]; everything else works. *)
Definition broken_clock (e : exn) : environment :=
  fun _ ev => match ev with ESleep _ => Some e | _ => None end.

(** The clock of Python's [time] module: [sleep] raises [ValueError] on a
    negative argument; the transport accepts everything. *)
Definition python_clock : environment :=
  fun _ ev =>
    match ev with
    | ESleep seconds =>
        if seconds <? 0 then Some (ValueError "sleep length must be non-negative")
        else None
    | _ => None
    end.

(** A transport that raises [e] on every [write] made after [rm.close()] has
    been called, and accepts everything else. *)
Definition closed_session (e : exn) : environment :=
  fun h ev =>
    match ev with
    | EWrite _ =>
        if existsb (fun c => match c with ERmClose => true | _ => false end) h
        then Some e else None
    | _ => None
    end.

(** A resource manager that cannot open the resource. *)
Definition unreachable_port (e : exn) : environment :=
  fun _ ev => match ev with EOpenResource _ => Some e | _ => None end.

(** * Properties *)

(** ** The monad and the trace *)

Lemma bind_Ret {A B : Type} (m : M A) (k : A -> M B) (t t' : trace) (a : A) :
  m t = (Ret a, t') -> bind m k t = k a t'.
Proof. intros Hm. unfold bind. now rewrite Hm. Qed.

Lemma bind_Raise {A B : Type} (m : M A) (k : A -> M B) (t t' : trace) (e : exn) :
  m t = (Raise e, t') -> bind m k t = (Raise e, t').
Proof. intros Hm. unfold bind. now rewrite Hm. Qed.

Lemma try_except_Ret {A : Type} (body : M A) (h : exn -> M A) (t t' : trace) (a : A) :
  body t = (Ret a, t') -> try_except body h t = (Ret a, t').
Proof. intros Hb. unfold try_except. now rewrite Hb. Qed.

Lemma try_except_Raise {A : Type} (body : M A) (h : exn -> M A) (t t' : trace) (e : exn) :
  body t = (Raise e, t') -> try_except body h t = h e t'.
Proof. intros Hb. unfold try_except. now rewrite Hb. Qed.

Lemma writes_app (t1 t2 : trace) : writes (t1 ++ t2) = writes t1 ++ writes t2.
Proof. apply omap_app. Qed.

Lemma writes_snoc_write (t : trace) (cmd : string) :
  writes (t ++ [EWrite cmd]) = writes t ++ [cmd].
Proof. now rewrite writes_app. Qed.

Lemma writes_snoc_print (t : trace) (text : string) :
  writes (t ++ [EPrint text]) = writes t.
Proof. rewrite writes_app. apply app_nil_r. Qed.

Lemma writes_snoc_sleep (t : trace) (d : Z) :
  writes (t ++ [ESleep d]) = writes t.
Proof. rewrite writes_app. apply app_nil_r. Qed.

Lemma extern_reliable (e : event) (t : trace) :
  extern reliable e t = (Ret tt, t ++ [e]).
Proof. reflexivity. Qed.

(** ** The range tables *)

Lemma voltage_ranges_documented (v_range : Z) (code : string) :
  In (v_range, code)
     [(10, "R2"); (100, "R3"); (1000, "R4"); (10000, "R5"); (30000, "R6")] ->
  voltage_ranges !! v_range = Some code.
Proof.
  simpl. intros H.
  repeat (destruct H as [H | H]; [injection H as <- <-; reflexivity |]).
  contradiction.
Qed.

Lemma voltage_ranges_unknown (v_range : Z) :
  ~ In v_range [10; 100; 1000; 10000; 30000] ->
  voltage_ranges !! v_range = None.
Proof.
  simpl. intros H. unfold voltage_ranges.
  rewrite !lookup_insert_ne by (intros <-; tauto).
  apply lookup_empty.
Qed.

Lemma current_ranges_documented (i_range : Z) (code : string) :
  In (i_range, code) [(1, "R4"); (10, "R5"); (100, "R6")] ->
  current_ranges !! i_range = Some code.
Proof.
  simpl. intros H.
  repeat (destruct H as [H | H]; [injection H as <- <-; reflexivity |]).
  contradiction.
Qed.

(** ** The limit setters *)

Lemma set_voltage_limit_accepted (env : environment) (vmax : Z) (t : trace) :
  0 <= vmax <= 30 ->
  set_voltage_limit env vmax t
  = (answer (env t (EWrite ("LV" +:+ Py.str vmax))),
     t ++ [EWrite ("LV" +:+ Py.str vmax)]).
Proof.
  intros H. unfold set_voltage_limit.
  destruct (Z.gtb_spec vmax 30); [lia |].
  destruct (Z.ltb_spec vmax 0); [lia |].
  reflexivity.
Qed.

Lemma set_voltage_limit_rejected (env : environment) (vmax : Z) (t : trace) :
  vmax > 30 \/ vmax < 0 ->
  set_voltage_limit env vmax t
  = (Raise (ValueError "Error: vmax should be in the 1 to 30 V range!"), t).
Proof.
  intros H. unfold set_voltage_limit.
  destruct (Z.gtb_spec vmax 30); [reflexivity |].
  destruct (Z.ltb_spec vmax 0); [reflexivity | lia].
Qed.

Lemma set_current_limit_accepted (env : environment) (imax : Z) (t : trace) :
  5 <= imax <= 120 ->
  set_current_limit env imax t
  = (answer (env t (EWrite ("LA" +:+ Py.str imax))),
     t ++ [EWrite ("LA" +:+ Py.str imax)]).
Proof.
  intros H. unfold set_current_limit.
  destruct (Z.gtb_spec imax 120); [lia |].
  destruct (Z.ltb_spec imax 5); [lia |].
  reflexivity.
Qed.

Lemma set_current_limit_rejected (env : environment) (imax : Z) (t : trace) :
  imax > 120 \/ imax < 5 ->
  set_current_limit env imax t
  = (Raise (ValueError "Error: imax should be in the 5 to 120 mA range!"), t).
Proof.
  intros H. unfold set_current_limit.
  destruct (Z.gtb_spec imax 120); [reflexivity |].
  destruct (Z.ltb_spec imax 5); [reflexivity | lia].
Qed.

(** C1.  The claim rejects [v_max = 0]; the guard of [set_voltage_limit] is
    [vmax > 30 or vmax < 0], so at [vmax = 0] nothing is raised and the command
    [LV0] is handed to the transport, although the error message of the same
    function gives the range as 1 to 30 V.  This theorem evaluates the code at
    that input: exactly one transport write, [LV0], and the outcome is the
    transport's answer (a normal return when the transport accepts it). *)
Theorem set_voltage_limit_zero_transmitted (env : environment) (t : trace) :
  set_voltage_limit env 0 t = (answer (env t (EWrite "LV0")), t ++ [EWrite "LV0"])
  /\ set_voltage_limit reliable 0 t = (Ret tt, t ++ [EWrite "LV0"]).
Proof. split; reflexivity. Qed.

(** C4.  For [5 <= imax <= 120], [set_current_limit] makes exactly one
    transport write, ["LA"] followed by [str(imax)], and raises nothing of its
    own; for every other [imax] it raises its [ValueError] (the spec's
    OutOfRangeError) and makes no external call at all. *)
Theorem set_current_limit_domain (env : environment) (imax : Z) (t : trace) :
  (5 <= imax <= 120 ->
   set_current_limit env imax t
   = (answer (env t (EWrite ("LA" +:+ Py.str imax))),
      t ++ [EWrite ("LA" +:+ Py.str imax)]))
  /\ (~ (5 <= imax <= 120) ->
      set_current_limit env imax t
      = (Raise (ValueError "Error: imax should be in the 5 to 120 mA range!"), t)).
Proof.
  split; intros H.
  - now apply set_current_limit_accepted.
  - apply set_current_limit_rejected. lia.
Qed.

Lemma set_current_limit_domain_witness :
  set_current_limit reliable 20 [] = (Ret tt, [EWrite "LA20"])
  /\ set_current_limit reliable 121 []
     = (Raise (ValueError "Error: imax should be in the 5 to 120 mA range!"), []).
Proof.
  split.
  - apply (proj1 (set_current_limit_domain reliable 20 [])). lia.
  - apply (proj2 (set_current_limit_domain reliable 121 [])). lia.
Defined.

(** C6.  [set_output_val] applies no check to [value]: for every value and
    polarity it makes exactly one transport write, ["S" + polarity +
    str(value) + "E"], and its outcome is the transport's answer, so it raises
    nothing of its own; with a transport that accepts the write it returns
    normally. *)
Theorem set_output_val_unchecked (env : environment) (value : Z)
    (polarity : string) (t : trace) :
  set_output_val env value polarity t
  = (answer (env t (EWrite ("S" +:+ polarity +:+ Py.str value +:+ "E"))),
     t ++ [EWrite ("S" +:+ polarity +:+ Py.str value +:+ "E")])
  /\ set_output_val reliable value polarity t
     = (Ret tt, t ++ [EWrite ("S" +:+ polarity +:+ Py.str value +:+ "E")]).
Proof. split; reflexivity. Qed.

(** C7.  With [v_min > v_max], [dc_voltage_sweep] raises its [ValueError]
    (the spec's InvalidParameterError) before any external call: the trace is
    unchanged, so neither a setup write nor an output-value write is made. *)
Theorem dc_voltage_sweep_bad_order (env : environment) (fuel : nat)
    (v_min v_max step delay v_range : Z) (i_limit : option Z)
    (polarity : string) (t : trace) :
  v_min > v_max ->
  dc_voltage_sweep env fuel v_min v_max step delay v_range i_limit polarity t
  = (Raise (ValueError "Error: v_min should be lower than v_max"), t).
Proof.
  intros H. unfold dc_voltage_sweep.
  destruct (Z.gtb_spec v_min v_max); [reflexivity | lia].
Qed.

Lemma dc_voltage_sweep_bad_order_witness :
  dc_voltage_sweep reliable 10 5 1 1 0 10000 (Some 20) "+" []
  = (Raise (ValueError "Error: v_min should be lower than v_max"), []).
Proof. apply dc_voltage_sweep_bad_order. lia. Defined.

(** ** The function selectors *)

(** Both composites are a [try] whose handler prints and returns, and neither
    contains a loop: whatever the arguments and whatever the external calls
    answer, the outcome is a normal return. *)
Lemma set_voltage_function_returns (env : environment) (v_range : Z)
    (i_limit : option Z) (t : trace) :
  fst (set_voltage_function env v_range i_limit t) = Ret tt.
Proof.
  unfold set_voltage_function, try_except, bind, getitem, extern.
  destruct (voltage_ranges !! v_range) as [code |]; simpl; [| reflexivity].
  destruct (env t _); simpl; [reflexivity |].
  destruct (Py.truthy i_limit); [| reflexivity].
  destruct i_limit as [imax |]; [| reflexivity].
  unfold set_current_limit, extern.
  destruct (_ || _); simpl; [reflexivity |].
  destruct (env _ _); reflexivity.
Qed.

Lemma set_current_function_returns (env : environment) (i_range : Z)
    (v_limit : option Z) (t : trace) :
  fst (set_current_function env i_range v_limit t) = Ret tt.
Proof.
  unfold set_current_function, try_except, bind, getitem, extern.
  destruct (current_ranges !! i_range) as [code |]; simpl; [| reflexivity].
  destruct (env t _); simpl; [reflexivity |].
  destruct (Py.truthy v_limit); [| reflexivity].
  destruct v_limit as [vmax |]; [| reflexivity].
  unfold set_voltage_limit, extern.
  destruct (_ || _); simpl; [reflexivity |].
  destruct (env _ _); reflexivity.
Qed.

(** Unknown range: the [KeyError] is caught before anything is written. *)
Lemma set_voltage_function_KeyError (env : environment) (v_range : Z)
    (i_limit : option Z) (t : trace) :
  voltage_ranges !! v_range = None ->
  set_voltage_function env v_range i_limit t
  = (Ret tt, t ++ [EPrint (Py.str v_range)]).
Proof.
  intros H. unfold set_voltage_function, try_except, bind, getitem.
  now rewrite H.
Qed.

(** Known range, no limit to set ([None] or [0]). *)
Lemma set_voltage_function_mode_only (env : environment) (v_range : Z)
    (code : string) (i_limit : option Z) (t : trace) :
  voltage_ranges !! v_range = Some code ->
  Py.truthy i_limit = false ->
  set_voltage_function env v_range i_limit t
  = (Ret tt,
     t ++ EWrite ("F1" +:+ code +:+ "E")
       :: match env t (EWrite ("F1" +:+ code +:+ "E")) with
          | None => []
          | Some e => [EPrint (Py.str_exn e)]
          end).
Proof.
  intros Hc Hl. unfold set_voltage_function, try_except, bind, getitem, extern.
  rewrite Hc, Hl. simpl.
  destruct (env t _); simpl; [| reflexivity].
  unfold print. now rewrite <- app_assoc.
Qed.

(** Known range, mode command accepted, a limit that [set_current_limit]
    accepts. *)
Lemma set_voltage_function_with_limit (env : environment) (v_range : Z)
    (code : string) (imax : Z) (t : trace) :
  voltage_ranges !! v_range = Some code ->
  env t (EWrite ("F1" +:+ code +:+ "E")) = None ->
  5 <= imax <= 120 ->
  env (t ++ [EWrite ("F1" +:+ code +:+ "E")]) (EWrite ("LA" +:+ Py.str imax)) = None ->
  set_voltage_function env v_range (Some imax) t
  = (Ret tt, t ++ [EWrite ("F1" +:+ code +:+ "E"); EWrite ("LA" +:+ Py.str imax)]).
Proof.
  intros Hc He1 Hi He2.
  unfold set_voltage_function, try_except, bind, getitem.
  rewrite Hc. unfold ret at 1. cbv beta iota zeta.
  unfold extern at 1. rewrite He1. simpl answer. cbv beta iota.
  replace (Py.truthy (Some imax)) with true
    by (unfold Py.truthy; destruct (Z.eqb_spec imax 0); [lia | reflexivity]).
  rewrite set_current_limit_accepted by exact Hi.
  rewrite He2. simpl. now rewrite <- app_assoc.
Qed.

(** Known range, mode command accepted, a limit outside 5..120: the mode
    command has gone out, then [set_current_limit] raises (unless the limit is
    [0], which the [if i_limit:] test treats like [None]) and the handler
    prints the message. *)
Lemma set_voltage_function_limit_swallowed (env : environment) (v_range : Z)
    (code : string) (imax : Z) (t : trace) :
  voltage_ranges !! v_range = Some code ->
  env t (EWrite ("F1" +:+ code +:+ "E")) = None ->
  imax > 120 \/ imax < 5 ->
  set_voltage_function env v_range (Some imax) t
  = (Ret tt,
     t ++ EWrite ("F1" +:+ code +:+ "E")
       :: if imax =? 0 then []
          else [EPrint "Error: imax should be in the 5 to 120 mA range!"]).
Proof.
  intros Hc He1 Hi.
  unfold set_voltage_function, try_except, bind, getitem.
  rewrite Hc. unfold ret at 1. cbv beta iota zeta.
  unfold extern at 1. rewrite He1. simpl answer. cbv beta iota.
  unfold Py.truthy. destruct (imax =? 0); cbn [negb].
  - reflexivity.
  - rewrite set_current_limit_rejected by exact Hi.
    unfold print. simpl. now rewrite <- app_assoc.
Qed.

Lemma set_current_function_limit_swallowed (env : environment) (i_range : Z)
    (code : string) (vmax : Z) (t : trace) :
  current_ranges !! i_range = Some code ->
  env t (EWrite ("F5" +:+ code +:+ "E")) = None ->
  vmax > 30 \/ vmax < 0 ->
  set_current_function env i_range (Some vmax) t
  = (Ret tt,
     t ++ [EWrite ("F5" +:+ code +:+ "E");
           EPrint "Error: vmax should be in the 1 to 30 V range!"]).
Proof.
  intros Hc He1 Hv.
  unfold set_current_function, try_except, bind, getitem.
  rewrite Hc. unfold ret at 1. cbv beta iota zeta.
  unfold extern at 1. rewrite He1. simpl answer. cbv beta iota.
  replace (Py.truthy (Some vmax)) with true
    by (unfold Py.truthy; destruct (Z.eqb_spec vmax 0); [lia | reflexivity]).
  rewrite set_voltage_limit_rejected by exact Hv.
  unfold print. simpl. now rewrite <- app_assoc.
Qed.

(** C2, as stated, fails: with the unknown range 5 the call returns normally,
    having printed the caught [KeyError]; nothing is raised to the caller. *)
Lemma set_voltage_function_unknown_range_not_raised :
  set_voltage_function reliable 5 None [] = (Ret tt, [EPrint "5"])
  /\ ~ (exists e : exn, fst (set_voltage_function reliable 5 None []) = Raise e).
Proof.
  split; [reflexivity |].
  intros [e He]. discriminate He.
Qed.

(** C2, amended.  For every [v_range] outside {10, 100, 1000, 10000, 30000}
    the failed lookup's [KeyError] is caught inside [set_voltage_function]:
    the call returns normally, its only external call is the [print] of the
    key, and it makes no transport write. *)
Theorem set_voltage_function_unknown_range (env : environment) (v_range : Z)
    (i_limit : option Z) (t : trace) :
  ~ In v_range [10; 100; 1000; 10000; 30000] ->
  set_voltage_function env v_range i_limit t
  = (Ret tt, t ++ [EPrint (Py.str v_range)])
  /\ writes (snd (set_voltage_function env v_range i_limit t)) = writes t.
Proof.
  intros H. apply voltage_ranges_unknown in H.
  rewrite (set_voltage_function_KeyError env v_range i_limit t H).
  split; [reflexivity |]. apply writes_snoc_print.
Qed.

Lemma set_voltage_function_unknown_range_witness :
  set_voltage_function reliable 20000 (Some 20) []
  = (Ret tt, [EPrint "20000"])
  /\ writes (snd (set_voltage_function reliable 20000 (Some 20) [])) = [].
Proof.
  apply (set_voltage_function_unknown_range reliable 20000 (Some 20) []).
  simpl. intros H. repeat (destruct H as [H | H]; [discriminate H |]). exact H.
Defined.

(** C3.  For each documented range, [set_voltage_function] without a current
    limit returns normally and makes exactly one transport write, ["F1"]
    followed by the documented token and ["E"]; when the transport accepts
    that write it is the call's only external call. *)
Theorem set_voltage_function_command (env : environment) (v_range : Z)
    (code : string) (t : trace) :
  In (v_range, code)
     [(10, "R2"); (100, "R3"); (1000, "R4"); (10000, "R5"); (30000, "R6")] ->
  fst (set_voltage_function env v_range None t) = Ret tt
  /\ writes (snd (set_voltage_function env v_range None t))
     = writes t ++ ["F1" +:+ code +:+ "E"]
  /\ (env t (EWrite ("F1" +:+ code +:+ "E")) = None ->
      set_voltage_function env v_range None t
      = (Ret tt, t ++ [EWrite ("F1" +:+ code +:+ "E")])).
Proof.
  intros H. apply voltage_ranges_documented in H.
  rewrite (set_voltage_function_mode_only env v_range code None t H eq_refl).
  split; [reflexivity |]. split.
  - simpl snd. rewrite writes_app.
    destruct (env t _); reflexivity.
  - intros ->. reflexivity.
Qed.

Lemma set_voltage_function_command_witness :
  set_voltage_function reliable 10000 None [] = (Ret tt, [EWrite "F1R5E"]).
Proof.
  apply (set_voltage_function_command reliable 10000 "R5" []).
  - simpl. tauto.
  - reflexivity.
Defined.

(** C9.  [set_voltage_function] and [set_current_function] return normally
    for all arguments and all answers of the external calls: every exception
    raised inside is caught by the [except Exception] handler, which prints
    it.  In particular, with a known range, an accepted mode command and a
    limit the limit setter rejects, the trace is the mode command followed by
    the print of the limit error: the mode command is out before the error is
    swallowed.  (A current limit of [0] never reaches [set_current_limit],
    because [if i_limit:] is false for it; then only the mode command is in
    the trace.) *)
Theorem function_setters_swallow_errors (env : environment) (t : trace) :
  (forall (v_range : Z) (i_limit : option Z),
      fst (set_voltage_function env v_range i_limit t) = Ret tt)
  /\ (forall (i_range : Z) (v_limit : option Z),
         fst (set_current_function env i_range v_limit t) = Ret tt)
  /\ (forall (v_range imax : Z) (code : string),
         voltage_ranges !! v_range = Some code ->
         env t (EWrite ("F1" +:+ code +:+ "E")) = None ->
         imax > 120 \/ imax < 5 ->
         snd (set_voltage_function env v_range (Some imax) t)
         = t ++ EWrite ("F1" +:+ code +:+ "E")
             :: if imax =? 0 then []
                else [EPrint "Error: imax should be in the 5 to 120 mA range!"])
  /\ (forall (i_range vmax : Z) (code : string),
         current_ranges !! i_range = Some code ->
         env t (EWrite ("F5" +:+ code +:+ "E")) = None ->
         vmax > 30 \/ vmax < 0 ->
         snd (set_current_function env i_range (Some vmax) t)
         = t ++ [EWrite ("F5" +:+ code +:+ "E");
                 EPrint "Error: vmax should be in the 1 to 30 V range!"]).
Proof.
  repeat split.
  - intros. apply set_voltage_function_returns.
  - intros. apply set_current_function_returns.
  - intros v_range imax code Hc He Hi.
    now rewrite (set_voltage_function_limit_swallowed env v_range code imax t).
  - intros i_range vmax code Hc He Hv.
    now rewrite (set_current_function_limit_swallowed env i_range code vmax t).
Qed.

Lemma function_setters_swallow_errors_witness :
  set_voltage_function reliable 10000 (Some 200) []
  = (Ret tt, [EWrite "F1R5E";
              EPrint "Error: imax should be in the 5 to 120 mA range!"])
  /\ set_current_function reliable 10 (Some 31) []
     = (Ret tt, [EWrite "F5R5E";
                 EPrint "Error: vmax should be in the 1 to 30 V range!"]).
Proof.
  destruct (function_setters_swallow_errors reliable []) as (Hv & Hc & Hvl & Hcl).
  split; apply injective_projections.
  - apply Hv.
  - apply (Hvl 10000 200 "R5"); [reflexivity | reflexivity | lia].
  - apply Hc.
  - apply (Hcl 10 31 "R5"); [reflexivity | reflexivity | lia].
Defined.

(** ** The sweep *)

Lemma sweep_values_length (n : nat) (v step : Z) :
  length (sweep_values n v step) = n.
Proof.
  revert v. induction n as [| n IH]; intros v; simpl; [reflexivity |].
  now rewrite IH.
Qed.

Lemma sweep_values_In (n : nat) (v step x : Z) :
  In x (sweep_values n v step) <->
  exists k : nat, (k < n)%nat /\ x = v + Z.of_nat k * step.
Proof.
  revert v. induction n as [| n IH]; intros v; simpl.
  - split; [contradiction | intros (k & Hk & _); lia].
  - rewrite IH. split.
    + intros [<- | (k & Hk & ->)].
      * exists 0%nat. split; lia.
      * exists (S k). split; lia.
    + intros (k & Hk & ->). destruct k as [| k].
      * left. lia.
      * right. exists k. split; lia.
Qed.

Lemma sweep_trace_writes (polarity : string) (delay : Z) (values : list Z) :
  writes (sweep_trace polarity delay values)
  = map (fun v => "S" +:+ polarity +:+ Py.str v +:+ "E") values.
Proof.
  induction values as [| v values IH]; [reflexivity |].
  change (sweep_trace polarity delay (v :: values))
    with ([EWrite ("S" +:+ polarity +:+ Py.str v +:+ "E"); ESleep delay]
            ++ sweep_trace polarity delay values).
  rewrite writes_app, IH. reflexivity.
Qed.

Section SweepLoop.

Variable env : environment.
Hypothesis env_ok : accepts_all env.
Variables (v_max step delay : Z) (polarity : string).

Lemma sweep_loop_exit (fuel : nat) (v_min : Z) (t : trace) :
  v_max < v_min ->
  sweep_loop env fuel v_min v_max step delay polarity t = (Ret tt, t).
Proof.
  intros H. destruct fuel; unfold sweep_loop;
    (destruct (Z.leb_spec v_min v_max); [lia | reflexivity]).
Qed.

Lemma sweep_loop_out_of_fuel (v_min : Z) (t : trace) :
  v_min <= v_max ->
  sweep_loop env 0 v_min v_max step delay polarity t = (Timeout, t).
Proof.
  intros H. unfold sweep_loop.
  destruct (Z.leb_spec v_min v_max); [reflexivity | lia].
Qed.

Lemma sweep_loop_step (fuel : nat) (v_min : Z) (t : trace) :
  v_min <= v_max ->
  sweep_loop env (S fuel) v_min v_max step delay polarity t
  = sweep_loop env fuel (v_min + step) v_max step delay polarity
      (t ++ sweep_trace polarity delay [v_min]).
Proof.
  intros H. cbn [sweep_loop].
  destruct (Z.leb_spec v_min v_max); [| lia].
  unfold bind at 1, set_output_val, extern at 1. rewrite env_ok.
  cbn [answer]. cbv zeta.
  unfold bind at 1, extern at 1. rewrite env_ok. cbn [answer].
  now rewrite <- app_assoc.
Qed.

(** [n] iterations, as long as the first [n] values all pass the test. *)
Lemma sweep_loop_iterate (n fuel : nat) (v_min : Z) (t : trace) :
  (forall k : nat, (k < n)%nat -> v_min + Z.of_nat k * step <= v_max) ->
  sweep_loop env (n + fuel) v_min v_max step delay polarity t
  = sweep_loop env fuel (v_min + Z.of_nat n * step) v_max step delay polarity
      (t ++ sweep_trace polarity delay (sweep_values n v_min step)).
Proof.
  revert v_min t. induction n as [| n IH]; intros v_min t H.
  - simpl. now rewrite Z.add_0_r, app_nil_r.
  - change (S n + fuel)%nat with (S (n + fuel)).
    rewrite sweep_loop_step by (specialize (H 0%nat); lia).
    rewrite IH by (intros k Hk; specialize (H (S k)); lia).
    replace (v_min + step + Z.of_nat n * step)
      with (v_min + Z.of_nat (S n) * step) by lia.
    now rewrite <- app_assoc.
Qed.

End SweepLoop.

Lemma sweep_count_within (v_min v_max step : Z) (k : nat) :
  0 < step -> v_min <= v_max ->
  (k < sweep_count v_min v_max step)%nat ->
  v_min + Z.of_nat k * step <= v_max.
Proof.
  intros Hs Hv Hk. unfold sweep_count in Hk.
  pose proof (Z.div_pos (v_max - v_min) step ltac:(lia) Hs) as Hq.
  pose proof (Z.mul_div_le (v_max - v_min) step Hs) as Hle.
  assert (Z.of_nat k <= (v_max - v_min) / step) as Hkq by lia.
  nia.
Qed.

Lemma sweep_count_beyond (v_min v_max step : Z) :
  0 < step -> v_min <= v_max ->
  v_max < v_min + Z.of_nat (sweep_count v_min v_max step) * step.
Proof.
  intros Hs Hv. unfold sweep_count.
  pose proof (Z.div_pos (v_max - v_min) step ltac:(lia) Hs) as Hq.
  pose proof (Z.mul_succ_div_gt (v_max - v_min) step Hs) as Hgt.
  rewrite Z2Nat.id by lia. nia.
Qed.

Lemma sweep_loop_terminates (env : environment) (fuel : nat)
    (v_min v_max step delay : Z) (polarity : string) (t : trace) :
  accepts_all env -> 0 < step -> v_min <= v_max ->
  (sweep_count v_min v_max step <= fuel)%nat ->
  sweep_loop env fuel v_min v_max step delay polarity t
  = (Ret tt,
     t ++ sweep_trace polarity delay
            (sweep_values (sweep_count v_min v_max step) v_min step)).
Proof.
  intros Henv Hs Hv Hf.
  replace fuel
    with (sweep_count v_min v_max step + (fuel - sweep_count v_min v_max step))%nat
    by lia.
  rewrite sweep_loop_iterate
    by (try exact Henv; intros k Hk; now apply sweep_count_within).
  apply sweep_loop_exit. now apply sweep_count_beyond.
Qed.

Lemma sweep_loop_diverges (env : environment) (fuel : nat)
    (v_min v_max step delay : Z) (polarity : string) (t : trace) :
  accepts_all env -> step <= 0 -> v_min <= v_max ->
  sweep_loop env fuel v_min v_max step delay polarity t
  = (Timeout, t ++ sweep_trace polarity delay (sweep_values fuel v_min step)).
Proof.
  intros Henv Hs Hv.
  replace fuel with (fuel + 0)%nat at 1 by lia.
  rewrite sweep_loop_iterate by (try exact Henv; intros k Hk; nia).
  apply sweep_loop_out_of_fuel. nia.
Qed.

(** C10, as stated, fails: the claim puts no condition on the delay, and
    with [delay = -1] on Python's clock the loop ends at its first
    [time.sleep], which raises.  For [v_min = 0], [v_max = 2], [step = 1] that
    is after one output-value write where the formula gives three; for
    [step = 0] the loop ends the same way although the claim says it never
    terminates. *)
Lemma sweep_loop_negative_delay_raises :
  sweep_loop python_clock 3 0 2 1 (-1) "+" []
  = (Raise (ValueError "sleep length must be non-negative"),
     [EWrite "S+0E"; ESleep (-1)])
  /\ Z.of_nat (length (writes (snd (sweep_loop python_clock 3 0 2 1 (-1) "+" []))))
     <> (2 - 0) / 1 + 1
  /\ sweep_loop python_clock 3 0 2 0 (-1) "+" []
     = (Raise (ValueError "sleep length must be non-negative"),
        [EWrite "S+0E"; ESleep (-1)]).
Proof.
  split; [reflexivity |]. split; [| reflexivity].
  vm_compute. discriminate.
Qed.

(** C10, amended.  For integer arguments, on a transport and clock that do
    not fail, and for [v_min <= v_max]:
    with [step > 0] the loop of [dc_voltage_sweep] returns as soon as the fuel
    covers [floor((v_max - v_min) / step) + 1] iterations, having made exactly
    that many output-value writes; with [step <= 0] it never returns: whatever
    the bound on the iterations, the bound is reached with the loop condition
    still true, one output-value write having been made per iteration. *)
Theorem sweep_loop_termination (env : environment)
    (v_min v_max step delay : Z) (polarity : string) (t : trace) :
  accepts_all env ->
  v_min <= v_max ->
  (0 < step ->
   forall fuel : nat,
     (sweep_count v_min v_max step <= fuel)%nat ->
     fst (sweep_loop env fuel v_min v_max step delay polarity t) = Ret tt
     /\ Z.of_nat (length (writes (snd (sweep_loop env fuel v_min v_max step
                                         delay polarity t))))
        = Z.of_nat (length (writes t)) + ((v_max - v_min) / step + 1))
  /\ (step <= 0 ->
      forall fuel : nat,
        fst (sweep_loop env fuel v_min v_max step delay polarity t) = Timeout
        /\ length (writes (snd (sweep_loop env fuel v_min v_max step
                                  delay polarity t)))
           = (length (writes t) + fuel)%nat).
Proof.
  intros Henv Hv. split; intros Hs fuel.
  - intros Hf. rewrite sweep_loop_terminates by assumption.
    split; [reflexivity |]. simpl snd.
    rewrite writes_app, sweep_trace_writes, length_app, length_map,
      sweep_values_length.
    unfold sweep_count.
    pose proof (Z.div_pos (v_max - v_min) step ltac:(lia) Hs). lia.
  - rewrite sweep_loop_diverges by assumption.
    split; [reflexivity |]. simpl snd.
    now rewrite writes_app, sweep_trace_writes, length_app, length_map,
      sweep_values_length.
Qed.

Lemma accepts_all_reliable : accepts_all reliable.
Proof. intros h e. reflexivity. Qed.

Lemma sweep_loop_termination_witness :
  (fst (sweep_loop reliable 3 0 2 1 0 "+" []) = Ret tt
   /\ Z.of_nat (length (writes (snd (sweep_loop reliable 3 0 2 1 0 "+" [])))) = 3)
  /\ (fst (sweep_loop reliable 7 0 2 0 0 "+" []) = Timeout
      /\ length (writes (snd (sweep_loop reliable 7 0 2 0 0 "+" []))) = 7%nat).
Proof.
  split.
  - apply (proj1 (sweep_loop_termination reliable 0 2 1 0 "+" []
                    accepts_all_reliable ltac:(lia)));
      [lia | vm_compute; lia].
  - apply (proj2 (sweep_loop_termination reliable 0 2 0 0 "+" []
                    accepts_all_reliable ltac:(lia))).
    lia.
Defined.

(** C5, as stated, fails: a call with [v_min <= v_max] and an unknown range
    returns normally, because [set_voltage_function] swallows the [KeyError];
    the sweep then runs without any setup write before it. *)
Lemma dc_voltage_sweep_unknown_range_still_sweeps :
  dc_voltage_sweep reliable 3 0 2 1 0 5 (Some 20) "+" []
  = (Ret tt, [EPrint "5"; EWrite "S+0E"; ESleep 0; EWrite "S+1E"; ESleep 0;
              EWrite "S+2E"; ESleep 0])
  /\ writes (snd (dc_voltage_sweep reliable 3 0 2 1 0 5 (Some 20) "+" []))
     = ["S+0E"; "S+1E"; "S+2E"].
Proof. split; reflexivity. Qed.

(** C5, amended.  With [v_min <= v_max], [step > 0], a documented range, a
    current limit in 5..120 and a transport and clock that do not fail,
    [dc_voltage_sweep] returns normally (given fuel for its
    [floor((v_max - v_min) / step) + 1] iterations) and its external calls are,
    in order: the mode command, the current-limit command, then for each of
    the values [v_min], [v_min + step], ... an output-value write followed by
    the sleep.  Every value written is [<= v_max], and the first value of the
    progression that is not written is [> v_max]. *)
Theorem dc_voltage_sweep_sequence (env : environment) (fuel : nat)
    (v_min v_max step delay v_range imax : Z) (code polarity : string)
    (t : trace) :
  accepts_all env ->
  v_min <= v_max ->
  0 < step ->
  In (v_range, code)
     [(10, "R2"); (100, "R3"); (1000, "R4"); (10000, "R5"); (30000, "R6")] ->
  5 <= imax <= 120 ->
  (sweep_count v_min v_max step <= fuel)%nat ->
  dc_voltage_sweep env fuel v_min v_max step delay v_range (Some imax) polarity t
  = (Ret tt,
     t ++ [EWrite ("F1" +:+ code +:+ "E"); EWrite ("LA" +:+ Py.str imax)]
       ++ sweep_trace polarity delay
            (sweep_values (sweep_count v_min v_max step) v_min step))
  /\ (forall v : Z,
         In v (sweep_values (sweep_count v_min v_max step) v_min step) ->
         v_min <= v <= v_max)
  /\ v_max < v_min + Z.of_nat (sweep_count v_min v_max step) * step.
Proof.
  intros Henv Hv Hs Hr Hi Hf. split; [| split].
  - unfold dc_voltage_sweep.
    destruct (Z.gtb_spec v_min v_max); [lia |].
    apply voltage_ranges_documented in Hr.
    erewrite bind_Ret
      by (apply (set_voltage_function_with_limit env v_range code imax t);
          [exact Hr | apply Henv | exact Hi | apply Henv]).
    rewrite sweep_loop_terminates by assumption.
    now rewrite <- app_assoc.
  - intros v Hin. apply sweep_values_In in Hin as (k & Hk & ->).
    split; [nia |]. now apply sweep_count_within.
  - now apply sweep_count_beyond.
Qed.

Lemma dc_voltage_sweep_sequence_witness :
  dc_voltage_sweep reliable 3 0 2 1 0 10000 (Some 20) "+" []
  = (Ret tt, [EWrite "F1R5E"; EWrite "LA20"; EWrite "S+0E"; ESleep 0;
              EWrite "S+1E"; ESleep 0; EWrite "S+2E"; ESleep 0]).
Proof.
  apply (dc_voltage_sweep_sequence reliable 3 0 2 1 0 10000 20 "R5" "+" []).
  - exact accepts_all_reliable.
  - lia.
  - lia.
  - simpl. tauto.
  - lia.
  - vm_compute. lia.
Defined.

(** ** After close *)

Lemma close_instrument_returned (env : environment) (self : instrument)
    (t : trace) :
  env t ERmClose = None ->
  close_instrument env self t
  = (Ret tt,
     t ++ [ERmClose;
           EPrint ("Communication with instrument " +:+ name self +:+ " at port "
                     +:+ port self +:+ " will be closed...");
           EPrint "VISA session closed!"]).
Proof.
  intros H. unfold close_instrument, bind, extern at 1, print. rewrite H.
  cbn [answer]. now rewrite <- !app_assoc.
Qed.

Lemma close_instrument_Ret_inv (env : environment) (self : instrument)
    (t : trace) :
  fst (close_instrument env self t) = Ret tt -> env t ERmClose = None.
Proof.
  unfold close_instrument, bind, extern at 1.
  destruct (env t ERmClose); [discriminate | reflexivity].
Qed.

Lemma close_instrument_writes (env : environment) (self : instrument)
    (t : trace) :
  writes (snd (close_instrument env self t)) = writes t.
Proof.
  unfold close_instrument, bind, extern, print.
  destruct (env t ERmClose); cbn [answer snd].
  - rewrite writes_app. apply app_nil_r.
  - rewrite !writes_snoc_print, writes_app. apply app_nil_r.
Qed.

(** C8, as stated, fails in every environment: there is no transport, session
    and call history for which [close_instrument] returns and a following
    [set_voltage_function(10000)] raises, and none for which it makes no
    transport write.  The selector hands its mode command to the transport
    and, should the transport raise, swallows that error too. *)
Lemma selector_after_close_never_raises :
  ~ (exists (env : environment) (self : instrument) (t : trace) (e : exn),
        fst (close_instrument env self t) = Ret tt
        /\ fst (bind (close_instrument env self)
                     (fun _ => set_voltage_function env 10000 None) t)
           = Raise e)
  /\ ~ (exists (env : environment) (self : instrument) (t : trace),
           fst (close_instrument env self t) = Ret tt
           /\ writes (snd (bind (close_instrument env self)
                                (fun _ => set_voltage_function env 10000 None) t))
              = writes t).
Proof.
  split.
  - intros (env & self & t & e & Hc & Hr).
    apply close_instrument_Ret_inv in Hc.
    rewrite (bind_Ret _ _ _ _ _ (close_instrument_returned env self t Hc)) in Hr.
    rewrite set_voltage_function_returns in Hr. discriminate Hr.
  - intros (env & self & t & Hc & Hw).
    pose proof (close_instrument_writes env self t) as Hcw.
    apply close_instrument_Ret_inv in Hc.
    pose proof (close_instrument_returned env self t Hc) as Hclose.
    rewrite Hclose in Hcw. cbn [snd] in Hcw.
    rewrite (bind_Ret _ _ _ _ _ Hclose) in Hw.
    rewrite (set_voltage_function_mode_only env 10000 "R5" None _
               eq_refl eq_refl) in Hw.
    cbn [snd] in Hw. rewrite writes_app, Hcw in Hw.
    apply (f_equal (@length string)) in Hw. rewrite length_app in Hw.
    destruct (env _ _); cbn in Hw; lia.
Qed.

(** C8, amended.  The driver keeps no open/closed state.  After a
    [close_instrument] that returned, every operation behaves exactly as the
    same operation started on the call history extended by the close's three
    calls (its [rm.close()] and its two prints).  So [initialize_instrument],
    [set_output_val] and [set_output_state] still hand their command to the
    transport's write, with the transport's answer as their outcome; the limit
    setters still apply their range check, raising their own [ValueError] with
    no write when it fails and handing their command to the transport when it
    passes; and [set_voltage_function] and [set_current_function] still return
    normally whatever happens. *)
Theorem write_after_close_unguarded (env : environment) (self : instrument)
    (t : trace) :
  env t ERmClose = None ->
  let closed :=
    t ++ [ERmClose;
          EPrint ("Communication with instrument " +:+ name self +:+ " at port "
                    +:+ port self +:+ " will be closed...");
          EPrint "VISA session closed!"] in
  close_instrument env self t = (Ret tt, closed)
  /\ (forall (A : Type) (op : M A),
         bind (close_instrument env self) (fun _ => op) t = op closed)
  /\ bind (close_instrument env self) (fun _ => initialize_instrument env) t
     = (answer (env closed (EWrite "RC")), closed ++ [EWrite "RC"])
  /\ (forall (value : Z) (polarity : string),
         bind (close_instrument env self)
              (fun _ => set_output_val env value polarity) t
         = (answer (env closed
                      (EWrite ("S" +:+ polarity +:+ Py.str value +:+ "E"))),
            closed ++ [EWrite ("S" +:+ polarity +:+ Py.str value +:+ "E")]))
  /\ (forall on : bool,
         bind (close_instrument env self)
              (fun _ => set_output_state env on) t
         = (answer (env closed
                      (EWrite ("O" +:+ Py.str (Py.int on) +:+ "E"))),
            closed ++ [EWrite ("O" +:+ Py.str (Py.int on) +:+ "E")]))
  /\ (forall vmax : Z,
         bind (close_instrument env self) (fun _ => set_voltage_limit env vmax) t
         = if (vmax >? 30) || (vmax <? 0)
           then (Raise (ValueError "Error: vmax should be in the 1 to 30 V range!"),
                 closed)
           else (answer (env closed (EWrite ("LV" +:+ Py.str vmax))),
                 closed ++ [EWrite ("LV" +:+ Py.str vmax)]))
  /\ (forall imax : Z,
         bind (close_instrument env self) (fun _ => set_current_limit env imax) t
         = if (imax >? 120) || (imax <? 5)
           then (Raise (ValueError "Error: imax should be in the 5 to 120 mA range!"),
                 closed)
           else (answer (env closed (EWrite ("LA" +:+ Py.str imax))),
                 closed ++ [EWrite ("LA" +:+ Py.str imax)]))
  /\ (forall (v_range : Z) (i_limit : option Z),
         fst (bind (close_instrument env self)
                   (fun _ => set_voltage_function env v_range i_limit) t)
         = Ret tt)
  /\ (forall (i_range : Z) (v_limit : option Z),
         fst (bind (close_instrument env self)
                   (fun _ => set_current_function env i_range v_limit) t)
         = Ret tt).
Proof.
  intros Hclose closed.
  pose proof (close_instrument_returned env self t Hclose) as Hc.
  fold closed in Hc.
  split; [exact Hc |].
  assert (forall (A : Type) (op : M A),
             bind (close_instrument env self) (fun _ => op) t = op closed)
    as Hafter by (intros A op; now rewrite (bind_Ret _ _ _ _ _ Hc)).
  split; [exact Hafter |].
  repeat split; intros; rewrite Hafter.
  - reflexivity.
  - reflexivity.
  - reflexivity.
  - unfold set_voltage_limit. now destruct (_ || _).
  - unfold set_current_limit. now destruct (_ || _).
  - apply set_voltage_function_returns.
  - apply set_current_function_returns.
Qed.

Lemma write_after_close_unguarded_witness :
  bind (close_instrument (closed_session (ExternalError "Invalid session"))
          {| name := "dc"; port := "COM1" |})
       (fun _ => set_output_val (closed_session (ExternalError "Invalid session"))
                   3 "+") []
  = (Raise (ExternalError "Invalid session"),
     [ERmClose;
      EPrint "Communication with instrument dc at port COM1 will be closed...";
      EPrint "VISA session closed!";
      EWrite "S+3E"])
  /\ bind (close_instrument reliable {| name := "dc"; port := "COM1" |})
          (fun _ => set_current_limit reliable 4) []
     = (Raise (ValueError "Error: imax should be in the 5 to 120 mA range!"),
        [ERmClose;
         EPrint "Communication with instrument dc at port COM1 will be closed...";
         EPrint "VISA session closed!"]).
Proof.
  split.
  - apply (write_after_close_unguarded
             (closed_session (ExternalError "Invalid session"))
             {| name := "dc"; port := "COM1" |} []).
    reflexivity.
  - apply (write_after_close_unguarded reliable
             {| name := "dc"; port := "COM1" |} []).
    reflexivity.
Defined.

(** * Further properties of the driver *)

(** ** Limit setters and function selectors *)

Lemma current_ranges_unknown (i_range : Z) :
  ~ In i_range [1; 10; 100] ->
  current_ranges !! i_range = None.
Proof.
  simpl. intros H. unfold current_ranges.
  rewrite !lookup_insert_ne by (intros <-; tauto).
  apply lookup_empty.
Qed.

Lemma truthy_nonzero (n : Z) : n <> 0 -> Py.truthy (Some n) = true.
Proof. intros H. unfold Py.truthy. now destruct (Z.eqb_spec n 0). Qed.

(** What [set_voltage_function] does once the range is known. *)
Lemma set_voltage_function_known (env : environment) (v_range : Z)
    (code : string) (i_limit : option Z) (t : trace) :
  voltage_ranges !! v_range = Some code ->
  set_voltage_function env v_range i_limit t
  = try_except
      (extern env (EWrite ("F1" +:+ code +:+ "E"));;
       if Py.truthy i_limit then
         match i_limit with
         | Some imax => set_current_limit env imax
         | None => ret tt
         end
       else ret tt)
      (fun e => print (Py.str_exn e)) t.
Proof.
  intros H. unfold set_voltage_function, try_except, bind at 1, getitem.
  now rewrite H.
Qed.

Lemma set_current_function_known (env : environment) (i_range : Z)
    (code : string) (v_limit : option Z) (t : trace) :
  current_ranges !! i_range = Some code ->
  set_current_function env i_range v_limit t
  = try_except
      (extern env (EWrite ("F5" +:+ code +:+ "E"));;
       if Py.truthy v_limit then
         match v_limit with
         | Some vmax => set_voltage_limit env vmax
         | None => ret tt
         end
       else ret tt)
      (fun e => print (Py.str_exn e)) t.
Proof.
  intros H. unfold set_current_function, try_except, bind at 1, getitem.
  now rewrite H.
Qed.

(** X1.  [set_voltage_limit] accepts exactly [0 <= vmax <= 30]: there it
    makes one transport write, ["LV"] followed by [str(vmax)], and raises
    nothing of its own; for every other [vmax] it raises its [ValueError]
    and makes no external call. *)
Theorem set_voltage_limit_domain (env : environment) (vmax : Z) (t : trace) :
  (0 <= vmax <= 30 ->
   set_voltage_limit env vmax t
   = (answer (env t (EWrite ("LV" +:+ Py.str vmax))),
      t ++ [EWrite ("LV" +:+ Py.str vmax)]))
  /\ (~ (0 <= vmax <= 30) ->
      set_voltage_limit env vmax t
      = (Raise (ValueError "Error: vmax should be in the 1 to 30 V range!"), t)).
Proof.
  split; intros H.
  - now apply set_voltage_limit_accepted.
  - apply set_voltage_limit_rejected. lia.
Qed.

Lemma set_voltage_limit_domain_witness :
  set_voltage_limit reliable 30 [] = (Ret tt, [EWrite "LV30"])
  /\ set_voltage_limit reliable (-1) []
     = (Raise (ValueError "Error: vmax should be in the 1 to 30 V range!"), []).
Proof.
  split.
  - apply (proj1 (set_voltage_limit_domain reliable 30 [])). lia.
  - apply (proj2 (set_voltage_limit_domain reliable (-1) [])). lia.
Defined.

(** X2.  For each range of the current table, [set_current_function] without
    a voltage limit returns normally and makes exactly one transport write,
    ["F5"] followed by the table's token and ["E"]; when the transport accepts
    that write it is the call's only external call. *)
Theorem set_current_function_command (env : environment) (i_range : Z)
    (code : string) (t : trace) :
  In (i_range, code) [(1, "R4"); (10, "R5"); (100, "R6")] ->
  fst (set_current_function env i_range None t) = Ret tt
  /\ writes (snd (set_current_function env i_range None t))
     = writes t ++ ["F5" +:+ code +:+ "E"]
  /\ (env t (EWrite ("F5" +:+ code +:+ "E")) = None ->
      set_current_function env i_range None t
      = (Ret tt, t ++ [EWrite ("F5" +:+ code +:+ "E")])).
Proof.
  intros H. apply current_ranges_documented in H.
  rewrite (set_current_function_known env i_range code None t H).
  unfold try_except, bind, extern, print. cbn [Py.truthy].
  destruct (env t _) as [e |]; cbn [answer fst snd].
  - split; [reflexivity |]. split; [| discriminate].
    now rewrite writes_snoc_print, writes_snoc_write.
  - split; [reflexivity |]. split; [| reflexivity].
    apply writes_snoc_write.
Qed.

Lemma set_current_function_command_witness :
  set_current_function reliable 100 None [] = (Ret tt, [EWrite "F5R6E"]).
Proof.
  apply (set_current_function_command reliable 100 "R6" []).
  - simpl. tauto.
  - reflexivity.
Defined.

(** X3.  For every [i_range] outside {1, 10, 100}, the failed lookup's
    [KeyError] is caught inside [set_current_function]: the call returns
    normally, prints the key and makes no transport write, whatever the
    voltage limit. *)
Theorem set_current_function_unknown_range (env : environment) (i_range : Z)
    (v_limit : option Z) (t : trace) :
  ~ In i_range [1; 10; 100] ->
  set_current_function env i_range v_limit t
  = (Ret tt, t ++ [EPrint (Py.str i_range)])
  /\ writes (snd (set_current_function env i_range v_limit t)) = writes t.
Proof.
  intros H. apply current_ranges_unknown in H.
  assert (set_current_function env i_range v_limit t
          = (Ret tt, t ++ [EPrint (Py.str i_range)])) as ->.
  { unfold set_current_function, try_except, bind, getitem. now rewrite H. }
  split; [reflexivity |]. apply writes_snoc_print.
Qed.

Lemma set_current_function_unknown_range_witness :
  set_current_function reliable 1000 (Some 10) [] = (Ret tt, [EPrint "1000"])
  /\ writes (snd (set_current_function reliable 1000 (Some 10) [])) = [].
Proof.
  apply (set_current_function_unknown_range reliable 1000 (Some 10) []).
  simpl. intros H. repeat (destruct H as [H | H]; [discriminate H |]). exact H.
Defined.

Lemma set_voltage_function_limit_result (env : environment) (v_range imax : Z)
    (code : string) (t : trace) :
  voltage_ranges !! v_range = Some code ->
  5 <= imax <= 120 ->
  env t (EWrite ("F1" +:+ code +:+ "E")) = None ->
  set_voltage_function env v_range (Some imax) t
  = (Ret tt,
     t ++ EWrite ("F1" +:+ code +:+ "E") :: EWrite ("LA" +:+ Py.str imax)
       :: match env (t ++ [EWrite ("F1" +:+ code +:+ "E")])
                    (EWrite ("LA" +:+ Py.str imax)) with
          | None => []
          | Some e => [EPrint (Py.str_exn e)]
          end).
Proof.
  intros Hr Hi He.
  rewrite (set_voltage_function_known env v_range code (Some imax) t Hr).
  unfold try_except, bind, extern at 1. rewrite He. cbn [answer].
  rewrite truthy_nonzero by lia.
  rewrite set_current_limit_accepted by exact Hi.
  destruct (env (_ ++ _) _) as [e |]; cbn [answer]; unfold print;
    now rewrite <- !app_assoc.
Qed.

Lemma set_current_function_limit_result (env : environment) (i_range vmax : Z)
    (code : string) (t : trace) :
  current_ranges !! i_range = Some code ->
  1 <= vmax <= 30 ->
  env t (EWrite ("F5" +:+ code +:+ "E")) = None ->
  set_current_function env i_range (Some vmax) t
  = (Ret tt,
     t ++ EWrite ("F5" +:+ code +:+ "E") :: EWrite ("LV" +:+ Py.str vmax)
       :: match env (t ++ [EWrite ("F5" +:+ code +:+ "E")])
                    (EWrite ("LV" +:+ Py.str vmax)) with
          | None => []
          | Some e => [EPrint (Py.str_exn e)]
          end).
Proof.
  intros Hr Hv He.
  rewrite (set_current_function_known env i_range code (Some vmax) t Hr).
  unfold try_except, bind, extern at 1. rewrite He. cbn [answer].
  rewrite truthy_nonzero by lia.
  rewrite set_voltage_limit_accepted by lia.
  destruct (env (_ ++ _) _) as [e |]; cbn [answer]; unfold print;
    now rewrite <- !app_assoc.
Qed.

(** X4.  With a documented range, an accepted mode command and a current
    limit in 5..120, [set_voltage_function] returns normally and its transport
    writes are the mode command, then the current-limit command; when the
    transport accepts the second write too, these are its only external
    calls. *)
Theorem set_voltage_function_then_limit (env : environment) (v_range imax : Z)
    (code : string) (t : trace) :
  In (v_range, code)
     [(10, "R2"); (100, "R3"); (1000, "R4"); (10000, "R5"); (30000, "R6")] ->
  5 <= imax <= 120 ->
  env t (EWrite ("F1" +:+ code +:+ "E")) = None ->
  fst (set_voltage_function env v_range (Some imax) t) = Ret tt
  /\ writes (snd (set_voltage_function env v_range (Some imax) t))
     = writes t ++ ["F1" +:+ code +:+ "E"; "LA" +:+ Py.str imax]
  /\ (env (t ++ [EWrite ("F1" +:+ code +:+ "E")])
          (EWrite ("LA" +:+ Py.str imax)) = None ->
      set_voltage_function env v_range (Some imax) t
      = (Ret tt, t ++ [EWrite ("F1" +:+ code +:+ "E");
                       EWrite ("LA" +:+ Py.str imax)])).
Proof.
  intros Hr Hi He. apply voltage_ranges_documented in Hr.
  rewrite (set_voltage_function_limit_result env v_range imax code t Hr Hi He).
  cbn [fst snd]. split; [reflexivity |]. split.
  - rewrite writes_app. destruct (env (_ ++ _) _); reflexivity.
  - intros ->. reflexivity.
Qed.

Lemma set_voltage_function_then_limit_witness :
  set_voltage_function reliable 10000 (Some 20) []
  = (Ret tt, [EWrite "F1R5E"; EWrite "LA20"]).
Proof.
  apply (set_voltage_function_then_limit reliable 10000 20 "R5" []).
  - simpl. tauto.
  - lia.
  - reflexivity.
  - reflexivity.
Defined.

(** X5.  With a range of the current table, an accepted mode command and a
    voltage limit in 1..30, [set_current_function] returns normally and its
    transport writes are the mode command, then the voltage-limit command. *)
Theorem set_current_function_then_limit (env : environment) (i_range vmax : Z)
    (code : string) (t : trace) :
  In (i_range, code) [(1, "R4"); (10, "R5"); (100, "R6")] ->
  1 <= vmax <= 30 ->
  env t (EWrite ("F5" +:+ code +:+ "E")) = None ->
  fst (set_current_function env i_range (Some vmax) t) = Ret tt
  /\ writes (snd (set_current_function env i_range (Some vmax) t))
     = writes t ++ ["F5" +:+ code +:+ "E"; "LV" +:+ Py.str vmax]
  /\ (env (t ++ [EWrite ("F5" +:+ code +:+ "E")])
          (EWrite ("LV" +:+ Py.str vmax)) = None ->
      set_current_function env i_range (Some vmax) t
      = (Ret tt, t ++ [EWrite ("F5" +:+ code +:+ "E");
                       EWrite ("LV" +:+ Py.str vmax)])).
Proof.
  intros Hr Hv He. apply current_ranges_documented in Hr.
  rewrite (set_current_function_limit_result env i_range vmax code t Hr Hv He).
  cbn [fst snd]. split; [reflexivity |]. split.
  - rewrite writes_app. destruct (env (_ ++ _) _); reflexivity.
  - intros ->. reflexivity.
Qed.

Lemma set_current_function_then_limit_witness :
  set_current_function reliable 10 (Some 12) []
  = (Ret tt, [EWrite "F5R5E"; EWrite "LV12"]).
Proof.
  apply (set_current_function_then_limit reliable 10 12 "R5" []).
  - simpl. tauto.
  - lia.
  - reflexivity.
  - reflexivity.
Defined.

(** X6.  A limit of [0] is not a limit: the [if i_limit:] and [if v_limit:]
    tests are false for it, so both selectors behave exactly as when the limit
    is omitted, in every environment.  In particular
    [set_current_function(i_range, 0)] writes no voltage-limit command. *)
Theorem zero_limit_is_no_limit (env : environment) (t : trace) :
  (forall v_range : Z,
      set_voltage_function env v_range (Some 0) t
      = set_voltage_function env v_range None t)
  /\ (forall i_range : Z,
         set_current_function env i_range (Some 0) t
         = set_current_function env i_range None t).
Proof. split; intros; reflexivity. Qed.

(** X7.  A transport error on the mode command is swallowed like any other:
    with a known range, if the write of the mode command raises [e], the
    selector prints [str(e)] and returns normally, and the limit setter is
    not reached, whatever the limit. *)
Theorem selector_write_failure_swallowed (env : environment) (t : trace)
    (e : exn) :
  (forall (v_range : Z) (code : string) (i_limit : option Z),
      voltage_ranges !! v_range = Some code ->
      env t (EWrite ("F1" +:+ code +:+ "E")) = Some e ->
      set_voltage_function env v_range i_limit t
      = (Ret tt, t ++ [EWrite ("F1" +:+ code +:+ "E"); EPrint (Py.str_exn e)]))
  /\ (forall (i_range : Z) (code : string) (v_limit : option Z),
         current_ranges !! i_range = Some code ->
         env t (EWrite ("F5" +:+ code +:+ "E")) = Some e ->
         set_current_function env i_range v_limit t
         = (Ret tt, t ++ [EWrite ("F5" +:+ code +:+ "E"); EPrint (Py.str_exn e)])).
Proof.
  split.
  - intros v_range code i_limit Hr He.
    rewrite (set_voltage_function_known env v_range code i_limit t Hr).
    unfold try_except, bind, extern at 1, print. rewrite He. cbn [answer].
    now rewrite <- app_assoc.
  - intros i_range code v_limit Hr He.
    rewrite (set_current_function_known env i_range code v_limit t Hr).
    unfold try_except, bind, extern at 1, print. rewrite He. cbn [answer].
    now rewrite <- app_assoc.
Qed.

Lemma selector_write_failure_swallowed_witness :
  set_voltage_function (dead_transport (ExternalError "timeout")) 10 (Some 20) []
  = (Ret tt, [EWrite "F1R2E"; EPrint "timeout"])
  /\ set_current_function (dead_transport (ExternalError "timeout")) 1 (Some 20) []
     = (Ret tt, [EWrite "F5R4E"; EPrint "timeout"]).
Proof.
  destruct (selector_write_failure_swallowed
              (dead_transport (ExternalError "timeout")) []
              (ExternalError "timeout")) as [Hv Hc].
  split.
  - apply (Hv 10 "R2" (Some 20)); reflexivity.
  - apply (Hc 1 "R4" (Some 20)); reflexivity.
Defined.

(** X8.  A transport error on the limit command is swallowed too: with a
    known range, an accepted mode command and a current limit in 5..120, if
    the write of the limit command raises [e], [set_voltage_function] has
    made both writes, prints [str(e)] and returns normally. *)
Theorem limit_write_failure_swallowed (env : environment) (v_range imax : Z)
    (code : string) (t : trace) (e : exn) :
  voltage_ranges !! v_range = Some code ->
  5 <= imax <= 120 ->
  env t (EWrite ("F1" +:+ code +:+ "E")) = None ->
  env (t ++ [EWrite ("F1" +:+ code +:+ "E")]) (EWrite ("LA" +:+ Py.str imax))
  = Some e ->
  set_voltage_function env v_range (Some imax) t
  = (Ret tt, t ++ [EWrite ("F1" +:+ code +:+ "E");
                   EWrite ("LA" +:+ Py.str imax);
                   EPrint (Py.str_exn e)]).
Proof.
  intros Hr Hi He1 He2.
  rewrite (set_voltage_function_limit_result env v_range imax code t Hr Hi He1).
  now rewrite He2.
Qed.

Lemma limit_write_failure_swallowed_witness :
  set_voltage_function (rejecting "LA20" (ExternalError "nack")) 10000 (Some 20) []
  = (Ret tt, [EWrite "F1R5E"; EWrite "LA20"; EPrint "nack"]).
Proof.
  apply (limit_write_failure_swallowed
           (rejecting "LA20" (ExternalError "nack")) 10000 20 "R5" []
           (ExternalError "nack"));
    [reflexivity | lia | reflexivity | reflexivity].
Defined.

(** ** The session *)

(** X9.  [__init__] does not catch anything.  If [visa.ResourceManager()]
    raises, that exception propagates and nothing else is done.  Otherwise the
    opening message is printed and [open_resource(port)] is called: if it
    raises, the exception propagates and the success message is never
    printed; if it returns, the success message is printed and the new object
    holds the name and the port it was given. *)
Theorem init_outcomes (env : environment) (name port : string) (t : trace) :
  (forall e : exn,
      env t EResourceManager = Some e ->
      init env name port t = (Raise e, t ++ [EResourceManager]))
  /\ (env t EResourceManager = None ->
      let opening := t ++ [EResourceManager; EPrint "Opening VISA session..."] in
      init env name port t
      = match env opening (EOpenResource port) with
        | Some e => (Raise e, opening ++ [EOpenResource port])
        | None =>
            (Ret {| name := name; port := port |},
             opening ++ [EOpenResource port;
                         EPrint "VISA session successfully opened!"])
        end).
Proof.
  split.
  - intros e He. unfold init, bind, extern at 1. now rewrite He.
  - intros He opening. unfold init, bind, extern at 1. rewrite He.
    cbn [answer]. unfold print at 1, extern.
    replace ((t ++ [EResourceManager]) ++ [EPrint "Opening VISA session..."])
      with opening by (subst opening; now rewrite <- app_assoc).
    destruct (env opening _); cbn [answer]; [reflexivity |].
    unfold print, ret. now rewrite <- app_assoc.
Qed.

Lemma init_outcomes_witness :
  init (unreachable_port (ExternalError "no device")) "dc" "GPIB::14::INSTR" []
  = (Raise (ExternalError "no device"),
     [EResourceManager; EPrint "Opening VISA session...";
      EOpenResource "GPIB::14::INSTR"]).
Proof.
  apply (proj2 (init_outcomes (unreachable_port (ExternalError "no device"))
                  "dc" "GPIB::14::INSTR" [])).
  reflexivity.
Defined.

(** X10.  [close_instrument] never writes to the transport, and it does not
    catch anything: if [rm.close()] raises, the exception propagates and
    neither message is printed. *)
Theorem close_instrument_outcomes (env : environment) (self : instrument)
    (t : trace) :
  writes (snd (close_instrument env self t)) = writes t
  /\ (forall e : exn,
         env t ERmClose = Some e ->
         close_instrument env self t = (Raise e, t ++ [ERmClose])).
Proof.
  split.
  - unfold close_instrument, bind, extern, print.
    destruct (env t ERmClose); cbn [answer snd].
    + rewrite writes_app. apply app_nil_r.
    + rewrite !writes_snoc_print, writes_app. apply app_nil_r.
  - intros e He. unfold close_instrument, bind, extern at 1. now rewrite He.
Qed.

Lemma close_instrument_outcomes_witness :
  close_instrument (fun _ ev => match ev with
                                | ERmClose => Some (ExternalError "busy")
                                | _ => None
                                end)
                   {| name := "dc"; port := "COM1" |} []
  = (Raise (ExternalError "busy"), [ERmClose]).
Proof.
  apply (proj2 (close_instrument_outcomes _ {| name := "dc"; port := "COM1" |} [])).
  reflexivity.
Defined.

(** X11.  Closing twice is not guarded either: after a [close_instrument]
    that returned, a second one calls [rm.close()] again, and its outcome is
    what the resource manager answers to that second call. *)
Theorem close_twice_unguarded (env : environment) (self : instrument)
    (t : trace) :
  env t ERmClose = None ->
  let farewell :=
    [EPrint ("Communication with instrument " +:+ name self +:+ " at port "
               +:+ port self +:+ " will be closed...");
     EPrint "VISA session closed!"] in
  let closed := t ++ ERmClose :: farewell in
  bind (close_instrument env self) (fun _ => close_instrument env self) t
  = (answer (env closed ERmClose),
     closed ++ ERmClose :: match env closed ERmClose with
                           | None => farewell
                           | Some _ => []
                           end).
Proof.
  intros Hclose farewell closed.
  assert (close_instrument env self t = (Ret tt, closed)) as Hc.
  { unfold close_instrument, bind, extern at 1, print. rewrite Hclose.
    cbn [answer]. subst closed farewell. now rewrite <- !app_assoc. }
  rewrite (bind_Ret _ _ _ _ _ Hc).
  unfold close_instrument, bind, extern at 1, print.
  destruct (env closed ERmClose); cbn [answer]; [reflexivity |].
  subst farewell. now rewrite <- !app_assoc.
Qed.

Lemma close_twice_unguarded_witness :
  bind (close_instrument reliable {| name := "dc"; port := "COM1" |})
       (fun _ => close_instrument reliable {| name := "dc"; port := "COM1" |}) []
  = (Ret tt,
     [ERmClose;
      EPrint "Communication with instrument dc at port COM1 will be closed...";
      EPrint "VISA session closed!";
      ERmClose;
      EPrint "Communication with instrument dc at port COM1 will be closed...";
      EPrint "VISA session closed!"]).
Proof.
  apply (close_twice_unguarded reliable {| name := "dc"; port := "COM1" |} []).
  reflexivity.
Defined.

(** ** Console helpers and the output switch *)

Lemma for_each_print (lines : list string) (t : trace) :
  for_each lines print t = (Ret tt, t ++ map EPrint lines).
Proof.
  revert t. induction lines as [| l lines IH]; intros t.
  - simpl. unfold ret. now rewrite app_nil_r.
  - cbn [for_each]. unfold bind, print at 1. rewrite IH.
    now rewrite <- app_assoc.
Qed.

Lemma for_each_map {A B : Type} (f : A -> B) (l : list A) (body : B -> M unit)
    (t : trace) :
  for_each l (fun x => body (f x)) t = for_each (map f l) body t.
Proof.
  revert t. induction l as [| x l IH]; intros t; [reflexivity |].
  cbn [for_each map]. unfold bind. destruct (body (f x) t) as [[] ?]; auto.
Qed.

(** X12.  [print_voltage_range] and [print_current_range] print the keys of
    their table in ascending order, one line per key with the unit after a
    space; they always return normally and call nothing but [print], so no
    command reaches the transport. *)
Theorem print_ranges_sorted (t : trace) :
  print_voltage_range t
  = (Ret tt, t ++ map EPrint ["10 mV"; "100 mV"; "1000 mV"; "10000 mV"; "30000 mV"])
  /\ print_current_range t
     = (Ret tt, t ++ map EPrint ["1 mA"; "10 mA"; "100 mA"])
  /\ writes (snd (print_voltage_range t)) = writes t
  /\ writes (snd (print_current_range t)) = writes t.
Proof.
  assert (print_voltage_range t
          = (Ret tt, t ++ map EPrint ["10 mV"; "100 mV"; "1000 mV";
                                      "10000 mV"; "30000 mV"])) as Hv.
  { unfold print_voltage_range. cbv zeta.
    replace (merge_sort Z.le (map_to_list voltage_ranges).*1)
      with [10; 100; 1000; 10000; 30000] by (vm_compute; reflexivity).
    rewrite (for_each_map (fun i => Py.str i +:+ " " +:+ "mV")).
    apply for_each_print. }
  assert (print_current_range t
          = (Ret tt, t ++ map EPrint ["1 mA"; "10 mA"; "100 mA"])) as Hc.
  { unfold print_current_range. cbv zeta.
    replace (merge_sort Z.le (map_to_list current_ranges).*1)
      with [1; 10; 100] by (vm_compute; reflexivity).
    rewrite (for_each_map (fun i => Py.str i +:+ " " +:+ "mA")).
    apply for_each_print. }
  rewrite Hv, Hc. repeat split; cbn [snd]; rewrite writes_app; apply app_nil_r.
Qed.

(** X13.  [set_output_state] makes exactly one transport write, ["O1E"] to
    switch the output on and ["O0E"] to switch it off, and its outcome is the
    transport's answer. *)
Theorem set_output_state_command (env : environment) (on : bool) (t : trace) :
  set_output_state env on t
  = (answer (env t (EWrite (if on then "O1E" else "O0E"))),
     t ++ [EWrite (if on then "O1E" else "O0E")]).
Proof. destruct on; reflexivity. Qed.

(** ** The sweep when something goes wrong *)

Lemma set_voltage_function_write_failure (env : environment) (v_range : Z)
    (code : string) (i_limit : option Z) (t : trace) (e : exn) :
  voltage_ranges !! v_range = Some code ->
  env t (EWrite ("F1" +:+ code +:+ "E")) = Some e ->
  set_voltage_function env v_range i_limit t
  = (Ret tt, t ++ [EWrite ("F1" +:+ code +:+ "E"); EPrint (Py.str_exn e)]).
Proof.
  intros Hr He.
  rewrite (set_voltage_function_known env v_range code i_limit t Hr).
  unfold try_except, bind, extern at 1, print. rewrite He. cbn [answer].
  now rewrite <- app_assoc.
Qed.

Lemma sweep_loop_write_failure (env : environment) (fuel : nat)
    (v_min v_max step delay : Z) (polarity : string) (t : trace) (e : exn) :
  v_min <= v_max ->
  env t (EWrite ("S" +:+ polarity +:+ Py.str v_min +:+ "E")) = Some e ->
  sweep_loop env (S fuel) v_min v_max step delay polarity t
  = (Raise e, t ++ [EWrite ("S" +:+ polarity +:+ Py.str v_min +:+ "E")]).
Proof.
  intros Hv He. cbn [sweep_loop].
  destruct (Z.leb_spec v_min v_max); [| lia].
  unfold bind at 1, set_output_val, extern at 1. now rewrite He.
Qed.

Lemma sweep_loop_sleep_failure (env : environment) (fuel : nat)
    (v_min v_max step delay : Z) (polarity : string) (t : trace) (e : exn) :
  v_min <= v_max ->
  env t (EWrite ("S" +:+ polarity +:+ Py.str v_min +:+ "E")) = None ->
  env (t ++ [EWrite ("S" +:+ polarity +:+ Py.str v_min +:+ "E")]) (ESleep delay)
  = Some e ->
  sweep_loop env (S fuel) v_min v_max step delay polarity t
  = (Raise e, t ++ [EWrite ("S" +:+ polarity +:+ Py.str v_min +:+ "E");
                    ESleep delay]).
Proof.
  intros Hv Hw Hs. cbn [sweep_loop].
  destruct (Z.leb_spec v_min v_max); [| lia].
  unfold bind at 1, set_output_val, extern at 1. rewrite Hw. cbn [answer].
  cbv zeta. unfold bind at 1, extern at 1. rewrite Hs. cbn [answer].
  now rewrite <- app_assoc.
Qed.

(** X14.  An unknown range does not stop [dc_voltage_sweep].  With
    [v_min <= v_max], [step > 0] and a transport and clock that do not fail,
    the call prints the caught [KeyError], then sweeps all the same and
    returns normally: its transport writes are the output-value writes only,
    with no mode command and no current-limit command before them. *)
Theorem dc_voltage_sweep_unknown_range (env : environment) (fuel : nat)
    (v_min v_max step delay v_range : Z) (i_limit : option Z)
    (polarity : string) (t : trace) :
  accepts_all env ->
  v_min <= v_max ->
  0 < step ->
  ~ In v_range [10; 100; 1000; 10000; 30000] ->
  (sweep_count v_min v_max step <= fuel)%nat ->
  dc_voltage_sweep env fuel v_min v_max step delay v_range i_limit polarity t
  = (Ret tt,
     t ++ EPrint (Py.str v_range)
       :: sweep_trace polarity delay
            (sweep_values (sweep_count v_min v_max step) v_min step))
  /\ writes (snd (dc_voltage_sweep env fuel v_min v_max step delay v_range
                    i_limit polarity t))
     = writes t
       ++ map (fun v => "S" +:+ polarity +:+ Py.str v +:+ "E")
            (sweep_values (sweep_count v_min v_max step) v_min step).
Proof.
  intros Henv Hv Hs Hr Hf. apply voltage_ranges_unknown in Hr.
  assert (dc_voltage_sweep env fuel v_min v_max step delay v_range i_limit
            polarity t
          = (Ret tt,
             t ++ EPrint (Py.str v_range)
               :: sweep_trace polarity delay
                    (sweep_values (sweep_count v_min v_max step) v_min step)))
    as ->.
  { unfold dc_voltage_sweep.
    destruct (Z.gtb_spec v_min v_max); [lia |].
    rewrite (bind_Ret _ _ _ _ _
               (set_voltage_function_KeyError env v_range i_limit t Hr)).
    rewrite sweep_loop_terminates by assumption.
    now rewrite <- app_assoc. }
  split; [reflexivity |]. cbn [snd].
  change (EPrint ?x :: ?l) with ([EPrint x] ++ l).
  now rewrite !writes_app, sweep_trace_writes.
Qed.

Lemma dc_voltage_sweep_unknown_range_witness :
  dc_voltage_sweep reliable 5 1 3 2 0 20000 (Some 20) "+" []
  = (Ret tt, [EPrint "20000"; EWrite "S+1E"; ESleep 0; EWrite "S+3E"; ESleep 0]).
Proof.
  apply (dc_voltage_sweep_unknown_range reliable 5 1 3 2 0 20000 (Some 20) "+" []).
  - exact accepts_all_reliable.
  - lia.
  - lia.
  - simpl. intros H. repeat (destruct H as [H | H]; [discriminate H |]). exact H.
  - vm_compute. lia.
Defined.

(** X15.  A rejected current limit does not stop [dc_voltage_sweep] either.
    With a documented range, a non-zero limit outside 5..120, [v_min <= v_max],
    [step > 0] and a transport and clock that do not fail, the call writes the
    mode command, prints the limit error, then sweeps and returns normally:
    the output values are driven although no current limit was set. *)
Theorem dc_voltage_sweep_rejected_limit (env : environment) (fuel : nat)
    (v_min v_max step delay v_range imax : Z) (code polarity : string)
    (t : trace) :
  accepts_all env ->
  v_min <= v_max ->
  0 < step ->
  In (v_range, code)
     [(10, "R2"); (100, "R3"); (1000, "R4"); (10000, "R5"); (30000, "R6")] ->
  imax > 120 \/ imax < 5 ->
  imax <> 0 ->
  (sweep_count v_min v_max step <= fuel)%nat ->
  dc_voltage_sweep env fuel v_min v_max step delay v_range (Some imax) polarity t
  = (Ret tt,
     t ++ [EWrite ("F1" +:+ code +:+ "E");
           EPrint "Error: imax should be in the 5 to 120 mA range!"]
       ++ sweep_trace polarity delay
            (sweep_values (sweep_count v_min v_max step) v_min step)).
Proof.
  intros Henv Hv Hs Hr Hi Hz Hf. apply voltage_ranges_documented in Hr.
  unfold dc_voltage_sweep.
  destruct (Z.gtb_spec v_min v_max); [lia |].
  rewrite (bind_Ret _ _ _ _ _
             (set_voltage_function_limit_swallowed env v_range code imax t
                Hr (Henv _ _) Hi)).
  destruct (Z.eqb_spec imax 0); [contradiction |].
  rewrite sweep_loop_terminates by assumption.
  now rewrite <- app_assoc.
Qed.

Lemma dc_voltage_sweep_rejected_limit_witness :
  dc_voltage_sweep reliable 5 0 1 1 0 10 (Some 500) "+" []
  = (Ret tt, [EWrite "F1R2E";
              EPrint "Error: imax should be in the 5 to 120 mA range!";
              EWrite "S+0E"; ESleep 0; EWrite "S+1E"; ESleep 0]).
Proof.
  apply (dc_voltage_sweep_rejected_limit reliable 5 0 1 1 0 10 500 "R2" "+" []).
  - exact accepts_all_reliable.
  - lia.
  - lia.
  - simpl. tauto.
  - lia.
  - lia.
  - vm_compute. lia.
Defined.

(** X16.  On a transport that rejects every write with [e], a sweep over a
    known range first swallows the failure of the mode command (printing
    [str(e)]), then raises [e] to its caller at the first output-value write:
    the loop body has no handler. *)
Theorem dc_voltage_sweep_dead_transport (env : environment) (fuel : nat)
    (v_min v_max step delay v_range : Z) (i_limit : option Z)
    (code polarity : string) (t : trace) (e : exn) :
  (forall (h : trace) (cmd : string), env h (EWrite cmd) = Some e) ->
  v_min <= v_max ->
  voltage_ranges !! v_range = Some code ->
  dc_voltage_sweep env (S fuel) v_min v_max step delay v_range i_limit polarity t
  = (Raise e,
     t ++ [EWrite ("F1" +:+ code +:+ "E"); EPrint (Py.str_exn e);
           EWrite ("S" +:+ polarity +:+ Py.str v_min +:+ "E")]).
Proof.
  intros Henv Hv Hr. unfold dc_voltage_sweep.
  destruct (Z.gtb_spec v_min v_max); [lia |].
  rewrite (bind_Ret _ _ _ _ _
             (set_voltage_function_write_failure env v_range code i_limit t e
                Hr (Henv _ _))).
  rewrite (sweep_loop_write_failure env fuel v_min v_max step delay polarity _ e
             Hv (Henv _ _)).
  now rewrite <- app_assoc.
Qed.

Lemma dc_voltage_sweep_dead_transport_witness :
  dc_voltage_sweep (dead_transport (ExternalError "timeout")) 1 0 2 1 0 10000
    (Some 20) "+" []
  = (Raise (ExternalError "timeout"),
     [EWrite "F1R5E"; EPrint "timeout"; EWrite "S+0E"]).
Proof.
  apply (dc_voltage_sweep_dead_transport
           (dead_transport (ExternalError "timeout")) 0 0 2 1 0 10000 (Some 20)
           "R5" "+" [] (ExternalError "timeout")).
  - intros h cmd. reflexivity.
  - lia.
  - reflexivity.
Defined.

(** X17.  The sleep is inside the loop with no handler: if [time.sleep(delay)]
    raises [e] while the transport accepts every write, the sweep loop raises
    [e] after exactly one output-value write, at [v_min], whatever [v_max] and
    [step]. *)
Theorem sweep_loop_sleep_raises (env : environment) (fuel : nat)
    (v_min v_max step delay : Z) (polarity : string) (t : trace) (e : exn) :
  (forall (h : trace) (cmd : string), env h (EWrite cmd) = None) ->
  (forall h : trace, env h (ESleep delay) = Some e) ->
  v_min <= v_max ->
  sweep_loop env (S fuel) v_min v_max step delay polarity t
  = (Raise e, t ++ [EWrite ("S" +:+ polarity +:+ Py.str v_min +:+ "E");
                    ESleep delay]).
Proof.
  intros Hw Hs Hv. now apply sweep_loop_sleep_failure.
Qed.

Lemma sweep_loop_sleep_raises_witness :
  sweep_loop (broken_clock (ValueError "sleep length must be non-negative"))
    4 0 3 1 (-1) "+" []
  = (Raise (ValueError "sleep length must be non-negative"),
     [EWrite "S+0E"; ESleep (-1)]).
Proof.
  apply (sweep_loop_sleep_raises
           (broken_clock (ValueError "sleep length must be non-negative"))
           3 0 3 1 (-1) "+" []).
  - intros h cmd. reflexivity.
  - intros h. reflexivity.
  - lia.
Defined.

(** ** Edge cases of the loop *)

Lemma sweep_values_zero_step (n : nat) (v : Z) :
  sweep_values n v 0 = repeat v n.
Proof.
  induction n as [| n IH]; [reflexivity |].
  cbn [sweep_values repeat]. now rewrite Z.add_0_r, IH.
Qed.

(** X18.  With [step = 0] the loop never advances: on a transport and clock
    that do not fail and for [v_min <= v_max], every iteration bound is
    reached with the loop condition still true, and every transport write of
    the loop is the same command, the output value [v_min]. *)
Theorem sweep_loop_zero_step (env : environment) (fuel : nat)
    (v_min v_max delay : Z) (polarity : string) (t : trace) :
  accepts_all env ->
  v_min <= v_max ->
  fst (sweep_loop env fuel v_min v_max 0 delay polarity t) = Timeout
  /\ writes (snd (sweep_loop env fuel v_min v_max 0 delay polarity t))
     = writes t ++ repeat ("S" +:+ polarity +:+ Py.str v_min +:+ "E") fuel.
Proof.
  intros Henv Hv.
  rewrite sweep_loop_diverges by (try assumption; lia).
  split; [reflexivity |]. cbn [snd].
  rewrite writes_app, sweep_trace_writes, sweep_values_zero_step.
  f_equal. induction fuel as [| n IH]; [reflexivity |].
  cbn [repeat map]. now rewrite IH.
Qed.

Lemma sweep_loop_zero_step_witness :
  fst (sweep_loop reliable 3 1 2 0 0 "+" []) = Timeout
  /\ writes (snd (sweep_loop reliable 3 1 2 0 0 "+" []))
     = ["S+1E"; "S+1E"; "S+1E"].
Proof.
  apply (sweep_loop_zero_step reliable 3 1 2 0 "+" []).
  - exact accepts_all_reliable.
  - lia.
Defined.

(** X19.  When the step is larger than the span [v_max - v_min] (which
    includes [v_min = v_max] with any positive step), the loop makes exactly
    one output-value write, at [v_min], in every environment; when the
    transport accepts that write and the sleep returns, the loop's external
    calls are that write and one sleep, and it returns normally. *)
Theorem sweep_loop_single_point (env : environment) (fuel : nat)
    (v_min v_max step delay : Z) (polarity : string) (t : trace) :
  v_min <= v_max ->
  v_max - v_min < step ->
  writes (snd (sweep_loop env (S fuel) v_min v_max step delay polarity t))
  = writes t ++ ["S" +:+ polarity +:+ Py.str v_min +:+ "E"]
  /\ (env t (EWrite ("S" +:+ polarity +:+ Py.str v_min +:+ "E")) = None ->
      env (t ++ [EWrite ("S" +:+ polarity +:+ Py.str v_min +:+ "E")])
          (ESleep delay) = None ->
      sweep_loop env (S fuel) v_min v_max step delay polarity t
      = (Ret tt, t ++ [EWrite ("S" +:+ polarity +:+ Py.str v_min +:+ "E");
                       ESleep delay])).
Proof.
  intros Hv Hs.
  destruct (env t (EWrite ("S" +:+ polarity +:+ Py.str v_min +:+ "E")))
    as [e |] eqn:Hw.
  - rewrite (sweep_loop_write_failure env fuel v_min v_max step delay polarity
               t e Hv Hw).
    split; [apply writes_snoc_write | discriminate].
  - destruct (env (t ++ [EWrite ("S" +:+ polarity +:+ Py.str v_min +:+ "E")])
                (ESleep delay)) as [e |] eqn:Hd.
    + rewrite (sweep_loop_sleep_failure env fuel v_min v_max step delay polarity
                 t e Hv Hw Hd).
      split; [| discriminate]. cbn [snd].
      change [EWrite ?c; ESleep ?d] with ([EWrite c] ++ [ESleep d]).
      now rewrite app_assoc, writes_snoc_sleep, writes_snoc_write.
    + assert (sweep_loop env (S fuel) v_min v_max step delay polarity t
              = (Ret tt, t ++ [EWrite ("S" +:+ polarity +:+ Py.str v_min +:+ "E");
                               ESleep delay])) as ->.
      { cbn [sweep_loop].
        destruct (Z.leb_spec v_min v_max); [| lia].
        unfold bind at 1, set_output_val, extern at 1. rewrite Hw.
        cbn [answer]. cbv zeta.
        unfold bind at 1, extern at 1. rewrite Hd. cbn [answer].
        rewrite sweep_loop_exit by lia. now rewrite <- app_assoc. }
      split; [| reflexivity]. cbn [snd].
      change [EWrite ?c; ESleep ?d] with ([EWrite c] ++ [ESleep d]).
      now rewrite app_assoc, writes_snoc_sleep, writes_snoc_write.
Qed.

Lemma sweep_loop_single_point_witness :
  sweep_loop python_clock 1 4 4 1 2 "-" [] = (Ret tt, [EWrite "S-4E"; ESleep 2])
  /\ writes (snd (sweep_loop python_clock 1 4 4 1 (-2) "-" [])) = ["S-4E"].
Proof.
  split.
  - apply (sweep_loop_single_point python_clock 0 4 4 1 2 "-" []);
      [lia | lia | reflexivity | reflexivity].
  - apply (sweep_loop_single_point python_clock 0 4 4 1 (-2) "-" []); lia.
Defined.

(** ** The wire format is unambiguous in the value *)

Lemma append_inv_head (s a b : string) : s +:+ a = s +:+ b -> a = b.
Proof.
  induction s as [| c s IH]; simpl; intros H; [exact H |].
  injection H as H. now apply IH.
Qed.

Lemma append_inv_last (a b : string) (c : Ascii.ascii) :
  a +:+ String c EmptyString = b +:+ String c EmptyString -> a = b.
Proof.
  revert b. induction a as [| x a IH]; intros [| y b]; simpl; intros H.
  - reflexivity.
  - injection H as _ H. destruct b; discriminate H.
  - injection H as _ H. destruct a; discriminate H.
  - injection H as -> H. f_equal. now apply IH.
Qed.

Lemma to_int_proper (n : Z) :
  Z.to_int n <> Decimal.Pos Decimal.Nil /\ Z.to_int n <> Decimal.Neg Decimal.Nil.
Proof.
  destruct n as [| p | p]; simpl; split; try discriminate;
    intros [= H]; now apply (Unsigned.to_uint_nonnil p).
Qed.

Lemma str_inj (n m : Z) : Py.str n = Py.str m -> n = m.
Proof.
  unfold Py.str. intros H. apply DecimalZ.to_int_inj.
  apply (f_equal NilZero.int_of_string) in H.
  destruct (to_int_proper n) as [Hn1 Hn2], (to_int_proper m) as [Hm1 Hm2].
  rewrite !NilZero.isi in H by assumption.
  now injection H.
Qed.

(** X20.  For a given polarity, the command written by [set_output_val]
    determines the value: two calls that hand the same command string to the
    transport were given the same value. *)
Theorem set_output_val_injective (env : environment) (value value' : Z)
    (polarity : string) (t : trace) :
  writes (snd (set_output_val env value polarity t))
  = writes (snd (set_output_val env value' polarity t)) ->
  value = value'.
Proof.
  unfold set_output_val, extern. cbn [snd].
  rewrite !writes_snoc_write. intros H.
  apply app_inv_head in H. injection H as H.
  apply append_inv_head in H.
  apply (append_inv_head polarity) in H.
  apply append_inv_last in H.
  now apply str_inj.
Qed.

Lemma set_output_val_injective_witness : 3 = 3.
Proof.
  apply (set_output_val_injective reliable 3 3 "+" []). reflexivity.
Defined.
